(** * V8 test runner: variant tables (tools/testrunner/local/variants.py)

    The module is declarative: four dictionaries, two sets, one sort key,
    one sorted list and a start-up assertion loop.  Dictionaries are kept as
    insertion-ordered association lists (the order of [keys] feeds a stable
    sort), sets as [gset string], Python integers as [Z]. *)

From stdpp Require Import base list strings gmap sorting.
From Stdlib Require Import ZArith Lia.

Local Open Scope string_scope.
Local Open Scope list_scope.
Local Open Scope Z_scope.

(** ** A small slice of Python *)

Module Py.

(** An exception instance: its class name and its [args] tuple. *)
Record exn := Exn { exc_type : string; exc_args : list string }.

(** Outcome of running statements that may raise. *)
Inductive result (A : Type) : Type :=
| Ok (a : A)
| Raise (e : exn).
Arguments Ok {A} a.
Arguments Raise {A} e.

Definition bind {A B} (m : result A) (k : A → result B) : result B :=
  match m with
  | Ok a => k a
  | Raise e => Raise e
  end.

(** [assert c] with no message stands for

      if __debug__:
        if not c: raise AssertionError

    A failing assertion raises [AssertionError()], whose [args] is the empty
    tuple.  [__debug__] is fixed when the interpreter starts: true by
    default, false under [-O] or [PYTHONOPTIMIZE], where the statement is
    compiled away. *)
Definition AssertionError : exn := Exn "AssertionError" [].

Definition py_assert (__debug__ : bool) (c : bool) : result unit :=
  if __debug__ then (if c then Ok tt else Raise AssertionError) else Ok tt.

(** [for x in xs: body x], stopping at the first exception. *)
Fixpoint for_each {A} (xs : list A) (body : A → result unit) : result unit :=
  match xs with
  | [] => Ok tt
  | x :: xs' => bind (body x) (λ _, for_each xs' body)
  end.

(** *** Dictionaries: insertion-ordered, unique keys *)

Section dict.
Context {V : Type}.

(** [d.get(k)] *)
Fixpoint dict_get (d : list (string * V)) (k : string) : option V :=
  match d with
  | [] => None
  | (k', v) :: d' => if String.eqb k' k then Some v else dict_get d' k
  end.

(** [d[k] = v]: an existing key keeps its position and takes the new
    value, a new key goes last. *)
Fixpoint dict_set (d : list (string * V)) (k : string) (v : V)
  : list (string * V) :=
  match d with
  | [] => [(k, v)]
  | (k', v') :: d' =>
      if String.eqb k' k then (k', v) :: d' else (k', v') :: dict_set d' k v
  end.

(** The display [{k1: v1, k2: v2, ...}], filled left to right. *)
Definition dict_literal (items : list (string * V)) : list (string * V) :=
  foldl (λ d kv, dict_set d kv.1 kv.2) [] items.

(** [d.keys()] *)
Definition keys (d : list (string * V)) : list string := d.*1.

(** [k in d] *)
Definition dict_contains (d : list (string * V)) (k : string) : bool :=
  bool_decide (is_Some (dict_get d k)).
End dict.

(** [d[k]] read for a key that is present; the two subscripts in
    variants.py read keys written a few lines above them
    (see [subscript_jitless] and [subscript_stress_incremental_marking]). *)
Definition subscript {V} `{Inhabited V} (d : list (string * V)) (k : string) : V :=
  default inhabitant (dict_get d k).

(** *** [sorted(xs, key=f)]

    The builtin is a stable sort on the keys.  It is modelled by stable
    insertion: an element is put in front of the first element whose key is
    not smaller, so it stays ahead of equal-keyed elements that followed it
    in the input. *)
Section sorted.
Context {A : Type} (key : A → Z).

Fixpoint insert_by_key (x : A) (l : list A) : list A :=
  match l with
  | [] => [x]
  | y :: l' => if key x <=? key y then x :: y :: l' else y :: insert_by_key x l'
  end.

Fixpoint sorted (l : list A) : list A :=
  match l with
  | [] => []
  | x :: l' => insert_by_key x (sorted l')
  end.
End sorted.

End Py.

Import Py.

(** ** The module's globals, in source order *)

(* Use this to run several variants of the tests. *)
Definition ALL_VARIANT_FLAGS : list (string * list (list string)) :=
  dict_literal [
    ("assert_types", [["--assert-types"]]);
    ("code_serializer", [["--cache=code"]]);
    ("default", [[]]);
    ("future", [["--future"]]);
    ("gc_stats", [["--gc-stats=1"]]);
    ("infra_staging", [[]]);
    ("interpreted_regexp", [["--regexp-interpret-all"]]);
    ("experimental_regexp", [["--default-to-experimental-regexp-engine"]]);
    ("jitless", [["--jitless"]]);
    ("minor_mc", [["--minor-mc"]]);
    ("nci", [["--turbo-nci"]]);
    ("nci_as_midtier", [["--turbo-nci-as-midtier"]]);
    ("no_lfa", [["--no-lazy-feedback-allocation"]]);
    ("no_local_heaps", [[
        "--no-local-heaps";
        "--no-turbo-direct-heap-access";
        "--no-finalize-streaming-on-background"]]);
    ("nooptimization", [["--no-opt"; "--liftoff"; "--no-wasm-tier-up";
                         "--wasm-generic-wrapper"]]);
    ("slow_path", [["--force-slow-path"]]);
    ("stress", [["--stress-opt"; "--no-liftoff"; "--stress-lazy-source-positions"]]);
    ("stress_concurrent_allocation", [["--stress-concurrent-allocation"]]);
    ("stress_js_bg_compile_wasm_code_gc", [["--stress-background-compile";
                                            "--finalize-streaming-on-background";
                                            "--stress-wasm-code-gc"]]);
    ("stress_incremental_marking", [["--stress-incremental-marking"]]);
    ("stress_snapshot", [["--stress-snapshot"]]);
    ("stress_sampling", [["--stress-sampling-allocation-profiler=16384"]]);
    ("trusted", [["--no-untrusted-code-mitigations"]]);
    ("no_wasm_traps", [["--no-wasm-trap-handler"]]);
    ("turboprop", [["--turboprop"]]);
    ("instruction_scheduling", [["--turbo-instruction-scheduling"]]);
    ("stress_instruction_scheduling", [["--turbo-stress-instruction-scheduling"]]);
    ("top_level_await", [["--harmony-top-level-await"]])
  ].

(* Flags that lead to a contradiction with the flags provided by the
   respective variant. *)
Definition INCOMPATIBLE_FLAGS_PER_VARIANT : list (string * list string) :=
  dict_literal [
    ("assert_types", ["--no-assert-types"]);
    ("jitless", ["--opt"; "--always-opt"; "--liftoff"; "--track-field-types"; "--validate-asm"]);
    ("no_wasm_traps", ["--wasm-trap-handler"]);
    ("nooptimization", ["--opt"; "--always-opt"; "--no-liftoff"; "--predictable"; "--wasm-tier-up"]);
    ("slow_path", ["--no-force-slow-path"]);
    ("stress_concurrent_allocation", ["--single-threaded-gc"; "--predictable"]);
    ("stress_incremental_marking", ["--no-stress-incremental-marking"]);
    ("future", ["--parallel-compile-tasks"]);
    ("stress_js_bg_compile_wasm_code_gc", ["--no-stress-background-compile"; "--parallel-compile-tasks"]);
    ("stress", ["--no-stress-opt"; "--always-opt"; "--no-always-opt"; "--liftoff"; "--max-inlined-bytecode-size=*";
                "--max-inlined-bytecode-size-cumulative=*"; "--stress-inline"]);
    ("turboprop", ["--interrupt-budget=*"; "--no-turboprop"]);
    ("code_serializer", ["--cache=after-execute"; "--cache=full-code-cache"; "--cache=none"]);
    ("no_local_heaps", ["--concurrent-inlining"]);
    ("experimental_regexp", ["--no-enable-experimental-regexp-engine"; "--no-default-to-experimental-regexp-engine"])
  ].

(* Flags that lead to a contradiction under certain build variables. *)
Definition INCOMPATIBLE_FLAGS_PER_BUILD_VARIABLE : list (string * list string) :=
  dict_literal [
    ("lite_mode", (["--no-lazy-feedback-allocation"; "--max-semi-space-size=*"]
                   ++ subscript INCOMPATIBLE_FLAGS_PER_VARIANT "jitless")%list);
    ("predictable", ["--liftoff"; "--parallel-compile-tasks";
                     "--concurrent-recompilation";
                     "--wasm-num-compilation-tasks=*";
                     "--stress-concurrent-allocation"])
  ].

(* Flags that lead to a contradiction when a certain extra-flag is present. *)
Definition INCOMPATIBLE_FLAGS_PER_EXTRA_FLAG : list (string * list string) :=
  dict_literal [
    ("--concurrent-recompilation", ["--no-concurrent-recompilation"; "--predictable"]);
    ("--enable-armv8", ["--no-enable-armv8"]);
    ("--gc-interval=*", ["--gc-interval=*"]);
    ("--no-enable-sse3", ["--enable-sse3"]);
    ("--no-enable-sse4-1", ["--enable-sse4-1"]);
    ("--optimize-for-size", ["--max-semi-space-size=*"]);
    ("--stress_concurrent_allocation", ["--single-threaded-gc"; "--predictable"]);
    ("--stress-flush-bytecode", ["--no-stress-flush-bytecode"]);
    ("--stress-incremental-marking",
       subscript INCOMPATIBLE_FLAGS_PER_VARIANT "stress_incremental_marking")
  ].

Definition SLOW_VARIANTS : gset string :=
  list_to_set [
    "stress";
    "stress_snapshot";
    "nooptimization"
  ].

Definition FAST_VARIANTS : gset string :=
  list_to_set [
    "default"
  ].

(** The body of [_variant_order_key], over the two sets it reads. *)
Definition variant_order_key (slow fast : gset string) (v : string) : Z :=
  if bool_decide (v ∈ slow) then 0
  else if bool_decide (v ∈ fast) then 100
  else 50.

Definition _variant_order_key (v : string) : Z :=
  variant_order_key SLOW_VARIANTS FAST_VARIANTS v.

(** [keys] lists the table in the order of its display, as dictionaries keep
    insertion order; the properties below that quantify over the input do
    not depend on that order. *)
Definition ALL_VARIANTS : list string :=
  sorted _variant_order_key (keys ALL_VARIANT_FLAGS).

(** The spec's [orderVariants]: the sort that builds [ALL_VARIANTS], applied
    to any sequence of names. *)
Definition orderVariants (names : list string) : list string :=
  sorted _variant_order_key names.

(** *** Running the module

    Importing variants.py evaluates its body top to bottom and ends with

      for variants in [SLOW_VARIANTS, FAST_VARIANTS]:
        for v in variants:
          assert v in ALL_VARIANT_FLAGS

    A set is iterated in an order the language leaves open: [elements]. *)
Definition check_variants_entries (__debug__ : bool)
    (flags : list (string * list (list string))) (slow fast : gset string)
  : result unit :=
  for_each [slow; fast] (λ variants,
    for_each (elements variants) (λ v,
      py_assert __debug__ (dict_contains flags v))).

(** The same loop with the iteration order of each set spelled out:
    [order] holds, for [SLOW_VARIANTS] and then [FAST_VARIANTS], the sequence
    in which [for v in variants] visits the names. *)
Definition check_entries_in_order (__debug__ : bool)
    (flags : list (string * list (list string))) (order : list (list string))
  : result unit :=
  for_each order (λ variants,
    for_each variants (λ v,
      py_assert __debug__ (dict_contains flags v))).

(** What an importer gets hold of when the body ran to its end. *)
Record variants_module := VariantsModule {
  mod_ALL_VARIANT_FLAGS : list (string * list (list string));
  mod_SLOW_VARIANTS : gset string;
  mod_FAST_VARIANTS : gset string;
  mod_ALL_VARIANTS : list string;
}.

(** The body from [SLOW_VARIANTS] on, for any variant table and any two
    classification sets in place of the literals, under an interpreter
    started with the given [__debug__]. *)
Definition exec_module (__debug__ : bool)
    (flags : list (string * list (list string))) (slow fast : gset string)
  : result variants_module :=
  let all_variants := sorted (variant_order_key slow fast) (keys flags) in
  bind (check_variants_entries __debug__ flags slow fast) (λ _,
    Ok (VariantsModule flags slow fast all_variants)).

(** ** The compatibility query

    variants.py carries the tables only; the code that reads the three
    incompatibility tables is in the test runner's test-case module, which is
    outside this development.  The query is therefore taken from the
    specification (section 4.1). *)

Module Resolver.

(** Modelled from the spec: Python-style [s.startswith(pre)], used for
    "sharing the same [--name=] prefix"; the matching code is missing. *)
Fixpoint startswith (pre s : string) : bool :=
  match pre, s with
  | EmptyString, _ => true
  | String a pre', String b s' => Ascii.eqb a b && startswith pre' s'
  | String _ _, EmptyString => false
  end.

(** Modelled from the spec: a FlagPattern "optionally ending in a wildcard
    marker ([=*])"; [wildcard_base p] is the flag name in front of the
    marker, if [p] ends in it.  The matching code is missing. *)
Fixpoint wildcard_base (p : string) : option string :=
  if String.eqb p "=*" then Some ""
  else match p with
       | EmptyString => None
       | String a p' => String a <$> wildcard_base p'
       end.

(** Modelled from the spec: flag matching (section 4.1, step 2); the
    matching code is missing.  "a bare pattern matches only an exact string
    match against a candidate flag; a wildcard pattern ([--name=*]) matches
    any candidate flag sharing the same [--name=] prefix regardless of
    value, including bare [--name] with no value". *)
Definition flag_matches (pattern candidate : string) : bool :=
  match wildcard_base pattern with
  | Some name => startswith (name +:+ "=") candidate || String.eqb candidate name
  | None => String.eqb pattern candidate
  end.

(** Modelled from the spec: the CompatibilityResolver's tables (section 2):
    the variant table and the three rule tables, keyed by variant, by build
    variable and by extra flag. *)
Record CompatibilityResolver := {
  variantTable : list (string * list (list string));
  rulesPerVariant : list (string * list string);
  rulesPerBuildVariable : list (string * list string);
  rulesPerExtraFlag : list (string * list string);
}.

Section query.
Context (R : CompatibilityResolver).

(** Modelled from the spec: the rule set keyed by [k], "empty if none
    registered"; the lookup code is missing. *)
Definition rule_set (table : list (string * list string)) (k : string)
  : list string :=
  default [] (dict_get table k).

(** Modelled from the spec: the rule sets an extra flag activates.  A
    source key of the extra-flag table is a flag pattern like any other (the
    data has "--gc-interval=*"), so an extra flag activates the rules under
    every key that matches it; under a bare key that is the flag string
    itself ("each extra flag string that itself appears as a rule source
    key").  The matching code is missing. *)
Definition activatedBy (extraFlag : string) : list string :=
  filter (λ rule, flag_matches rule.1 extraFlag = true) (rulesPerExtraFlag R)
  ≫= snd.

(** Modelled from the spec: the variant's own base flags, all its flag-set
    alternatives taken together. *)
Definition baseFlags (variantName : string) : list string :=
  concat (default [] (dict_get (variantTable R) variantName)).

(** Modelled from the spec: step 1, the applicable exclusion sets, merged
    into one: "the rule set keyed by [variantName], the union of rule sets
    keyed by each active build variable, and the union of rule sets keyed by
    each extra flag string that itself appears as a rule source key (this
    handles the case where one extra flag forbids another)".  A pattern that
    an extra flag brings in keeps the position of that flag, [None] marks
    the patterns of the variant and of the build variables. *)
Definition collectExclusions
    (variantName : string) (buildVariables : gset string)
    (extraFlags : list string) : list (option nat * string) :=
  (pair None <$> rule_set (rulesPerVariant R) variantName)
  ++ (pair None <$>
        (elements buildVariables ≫= rule_set (rulesPerBuildVariable R)))
  ++ mjoin (imap (λ i e, pair (Some i) <$> activatedBy e) extraFlags).

(** Modelled from the spec: step 2, the candidates: "the variant's own
    base flags plus the caller's extra flags"; an extra flag keeps its
    position, [None] marks the base flags. *)
Definition candidateFlags (variantName : string) (extraFlags : list string)
  : list (option nat * string) :=
  (pair None <$> baseFlags variantName)
  ++ imap (λ i e, (Some i, e)) extraFlags.

(** Modelled from the spec: one test of step 2.  A candidate is hit by a
    collected pattern that matches it, unless the candidate is the very
    extra flag that brought the pattern in: an extra flag forbids "another"
    flag, and "supplying [--x=1] alone (no duplicate) reports compatible"
    although [--x=1] activates the rule that excludes [--x=*] (section 4.1,
    edge cases, and section 8). *)
Definition excludes (exclusion candidate : option nat * string) : bool :=
  bool_decide (exclusion.1 = None ∨ exclusion.1 ≠ candidate.1)
  && flag_matches exclusion.2 candidate.2.

(** Modelled from the spec: [isCompatible], steps 3 and 4: incompatible
    as soon as some candidate is hit by some collected pattern. *)
Definition isCompatible
    (variantName : string) (buildVariables : gset string)
    (extraFlags : list string) : bool :=
  negb (existsb
          (λ c, existsb (λ x, excludes x c)
                  (collectExclusions variantName buildVariables extraFlags))
          (candidateFlags variantName extraFlags)).
End query.

(** The resolver over the tables of variants.py. *)
Definition variants_py : CompatibilityResolver := {|
  variantTable := ALL_VARIANT_FLAGS;
  rulesPerVariant := INCOMPATIBLE_FLAGS_PER_VARIANT;
  rulesPerBuildVariable := INCOMPATIBLE_FLAGS_PER_BUILD_VARIABLE;
  rulesPerExtraFlag := INCOMPATIBLE_FLAGS_PER_EXTRA_FLAG;
|}.


End Resolver.

Import Resolver.

(** * Properties *)

(** Closed decidable facts about the tables are settled by evaluation. *)
Ltac by_evaluation := apply (bool_decide_unpack _); vm_compute; exact I.

(** ** Dictionaries *)

Section dict_facts.
Context {V : Type}.
Implicit Types (d : list (string * V)) (k : string) (v : V).

Lemma dict_get_None d k : dict_get d k = None ↔ k ∉ keys d.
Proof.
  unfold keys. induction d as [|[k' v'] d IH]; simpl.
  - split; [intros _; apply not_elem_of_nil | done].
  - destruct (String.eqb_spec k' k) as [->|Hne].
    + split; [done | intros []; left].
    + rewrite IH, not_elem_of_cons. split; [by intros ? | by intros [_ ?]].
Qed.

Lemma dict_get_is_Some d k : is_Some (dict_get d k) ↔ k ∈ keys d.
Proof.
  rewrite <-not_eq_None_Some, dict_get_None.
  destruct (decide (k ∈ keys d)); naive_solver.
Qed.

Lemma dict_contains_true d k : dict_contains d k = true ↔ k ∈ keys d.
Proof.
  unfold dict_contains. rewrite bool_decide_eq_true. apply dict_get_is_Some.
Qed.

Lemma keys_dict_set d k v :
  keys (dict_set d k v) = if decide (k ∈ keys d) then keys d else keys d ++ [k].
Proof.
  unfold keys. induction d as [|[k' v'] d IH].
  - destruct (decide (k ∈ ([] : list (string * V)).*1)) as [Hk|Hk];
      [by apply elem_of_nil in Hk | done].
  - cbn [dict_set]. rewrite (fmap_cons fst (k', v') d). cbn [fst].
    destruct (String.eqb_spec k' k) as [->|Hne].
    + rewrite decide_True by (apply elem_of_cons; by left). reflexivity.
    + rewrite fmap_cons, IH. cbn [fst].
      destruct (decide (k ∈ d.*1)) as [H1|H1].
      * rewrite decide_True by (apply elem_of_cons; by right). reflexivity.
      * rewrite decide_False; [reflexivity|].
        rewrite not_elem_of_cons. split; [congruence | done].
Qed.

Lemma NoDup_keys_dict_set d k v : NoDup (keys d) → NoDup (keys (dict_set d k v)).
Proof.
  intros Hd. rewrite keys_dict_set. case_decide; [done|].
  apply NoDup_app. split_and!; [done | | apply NoDup_singleton].
  intros x Hx ->%list_elem_of_singleton. done.
Qed.

(** A dictionary display never yields a key twice. *)
Lemma NoDup_keys_dict_literal (items : list (string * V)) :
  NoDup (keys (dict_literal items)).
Proof.
  unfold dict_literal.
  assert (∀ d, NoDup (keys d) →
            NoDup (keys (foldl (λ d kv, dict_set d kv.1 kv.2) d items))) as H.
  { induction items as [|kv items IH]; intros d Hd; simpl; [done|].
    apply IH, NoDup_keys_dict_set, Hd. }
  apply H, NoDup_nil_2.
Qed.
End dict_facts.

(** ** The stable sort *)

Section sorted_facts.
Context {A : Type} (key : A → Z).
Implicit Types (x : A) (l : list A).

Lemma insert_by_key_Permutation x l : insert_by_key key x l ≡ₚ x :: l.
Proof.
  induction l as [|y l IH]; simpl; [done|].
  destruct (key x <=? key y); [done|].
  rewrite IH. apply Permutation_swap.
Qed.

Lemma sorted_Permutation l : sorted key l ≡ₚ l.
Proof.
  induction l as [|x l IH]; simpl; [done|].
  rewrite insert_by_key_Permutation. by f_equiv.
Qed.

(** Insertion walks past everything with a strictly smaller key ... *)
Lemma insert_by_key_skip x l1 l2 :
  Forall (λ y, key y < key x) l1 →
  insert_by_key key x (l1 ++ l2) = l1 ++ insert_by_key key x l2.
Proof.
  induction 1 as [|y l1 Hy _ IH]; simpl; [done|].
  destruct (Z.leb_spec (key x) (key y)); [lia|]. by rewrite IH.
Qed.

(** ... and stops in front of a rest none of whose keys is smaller. *)
Lemma insert_by_key_stop x l :
  Forall (λ y, key x ≤ key y) l → insert_by_key key x l = x :: l.
Proof.
  destruct 1 as [|y l Hy _]; simpl; [done|].
  destruct (Z.leb_spec (key x) (key y)); [done | lia].
Qed.

(** Stability: the elements of any one key come out in input order. *)
Lemma filter_key_insert_by_key (k : Z) x l :
  filter (λ y, key y = k) (insert_by_key key x l) =
  filter (λ y, key y = k) (x :: l).
Proof.
  induction l as [|y l IH]; simpl; [done|].
  destruct (Z.leb_spec (key x) (key y)) as [Hle|Hlt]; [done|].
  rewrite (filter_cons _ y), IH, !filter_cons.
  repeat case_decide; try done. lia.
Qed.

Lemma sorted_stable (k : Z) l :
  filter (λ y, key y = k) (sorted key l) = filter (λ y, key y = k) l.
Proof.
  induction l as [|x l IH]; simpl; [done|].
  rewrite filter_key_insert_by_key, !filter_cons, IH. done.
Qed.

(** The output ascends in the key. *)
Lemma insert_by_key_sorted x l :
  StronglySorted (λ y z, key y ≤ key z) l →
  StronglySorted (λ y z, key y ≤ key z) (insert_by_key key x l).
Proof.
  induction 1 as [|y l Hl IH Hy]; simpl; [repeat constructor|].
  destruct (Z.leb_spec (key x) (key y)) as [Hle|Hlt].
  - constructor; [by constructor|]. constructor; [done|].
    eapply Forall_impl; [apply Hy|]. simpl. intros; lia.
  - constructor; [done|]. rewrite insert_by_key_Permutation.
    constructor; [lia | done].
Qed.

Lemma sorted_ascending l : StronglySorted (λ y z, key y ≤ key z) (sorted key l).
Proof.
  induction l as [|x l IH]; simpl; [constructor|].
  by apply insert_by_key_sorted.
Qed.

(** With three key values the output is the three classes, one after the
    other, each in input order. *)
Lemma sorted_three_classes (a b c : Z) l :
  a < b < c →
  Forall (λ x, key x = a ∨ key x = b ∨ key x = c) l →
  sorted key l =
    filter (λ x, key x = a) l ++ filter (λ x, key x = b) l
    ++ filter (λ x, key x = c) l.
Proof.
  intros Habc. induction 1 as [|x l Hx _ IH]; simpl; [done|].
  rewrite IH, !filter_cons.
  assert (∀ k, Forall (λ y, key y = k) (filter (λ x, key x = k) l)) as Hk.
  { intros k. apply Forall_forall. by intros y [? _]%list_elem_of_filter. }
  repeat case_decide; try lia; destruct Hx as [Hx|[Hx|Hx]]; try lia.
  - apply insert_by_key_stop. rewrite !Forall_app. split_and!;
      eapply Forall_impl; try apply Hk; simpl; intros; lia.
  - rewrite insert_by_key_skip
      by (eapply Forall_impl; [apply Hk|]; simpl; intros; lia).
    f_equal. apply insert_by_key_stop. rewrite !Forall_app. split_and!;
      eapply Forall_impl; try apply Hk; simpl; intros; lia.
  - rewrite insert_by_key_skip
      by (eapply Forall_impl; [apply Hk|]; simpl; intros; lia).
    f_equal.
    rewrite insert_by_key_skip
      by (eapply Forall_impl; [apply Hk|]; simpl; intros; lia).
    f_equal. apply insert_by_key_stop.
    eapply Forall_impl; [apply Hk|]; simpl; intros; lia.
Qed.
End sorted_facts.

(** ** The ordering key *)

Section order_key.
Context (slow fast : gset string).
Implicit Types v : string.

Lemma variant_order_key_slow v : variant_order_key slow fast v = 0 ↔ v ∈ slow.
Proof. unfold variant_order_key. repeat case_bool_decide; split; (done || lia). Qed.

Lemma variant_order_key_normal v :
  variant_order_key slow fast v = 50 ↔ (v ∉ slow) ∧ (v ∉ fast).
Proof.
  unfold variant_order_key. repeat case_bool_decide; split;
    (lia || tauto || done).
Qed.

Lemma variant_order_key_fast v :
  variant_order_key slow fast v = 100 ↔ (v ∉ slow) ∧ v ∈ fast.
Proof.
  unfold variant_order_key. repeat case_bool_decide; split;
    (lia || tauto || done).
Qed.

Lemma variant_order_key_cases v :
  variant_order_key slow fast v = 0 ∨ variant_order_key slow fast v = 50
  ∨ variant_order_key slow fast v = 100.
Proof. unfold variant_order_key. repeat case_bool_decide; auto. Qed.

(** The sort on this key, for any two classification sets. *)
Lemma sorted_variant_order_key (names : list string) :
  sorted (variant_order_key slow fast) names =
    filter (λ v, v ∈ slow) names
    ++ filter (λ v, (v ∉ slow) ∧ (v ∉ fast)) names
    ++ filter (λ v, (v ∉ slow) ∧ v ∈ fast) names.
Proof.
  rewrite (sorted_three_classes _ 0 50 100); [|lia|].
  - f_equal; [|f_equal]; apply list_filter_iff; intros v.
    + apply variant_order_key_slow.
    + apply variant_order_key_normal.
    + apply variant_order_key_fast.
  - apply Forall_forall. intros v _. apply variant_order_key_cases.
Qed.
End order_key.

Lemma SLOW_FAST_disjoint : SLOW_VARIANTS ## FAST_VARIANTS.
Proof.
  intros v Hs Hf. revert Hs.
  apply elem_of_list_to_set, list_elem_of_singleton in Hf as ->.
  apply (bool_decide_unpack (_ ∉ _)). vm_compute. exact I.
Qed.

(** C1. [orderVariants], the sort on [_variant_order_key] that builds
    [ALL_VARIANTS], returns for every input sequence the names classified
    slow, then the names in neither class, then the names classified fast,
    and each of the three groups is the input with the other names left out,
    so the input order is kept inside every class. *)
Theorem orderVariants_slow_normal_fast (names : list string) :
  orderVariants names =
    filter (λ v, v ∈ SLOW_VARIANTS) names
    ++ filter (λ v, (v ∉ SLOW_VARIANTS) ∧ (v ∉ FAST_VARIANTS)) names
    ++ filter (λ v, v ∈ FAST_VARIANTS) names.
Proof.
  unfold orderVariants, _variant_order_key.
  rewrite sorted_variant_order_key. do 2 f_equal.
  apply list_filter_iff. intros v. split; [tauto|].
  intros Hf. split; [|done]. intros Hs. by apply (SLOW_FAST_disjoint v).
Qed.

(** C9. No name is in both [SLOW_VARIANTS] and [FAST_VARIANTS].  The key
    tests slow membership before fast membership: over any two
    classification sets, a name in the slow set gets 0 whether or not it is
    fast as well (so a name in both gets 0 and not 100), a name that is only
    fast gets 100, and a name in neither gets 50.  [_variant_order_key] is
    that key over the module's two sets: 0 exactly on the slow names, 100
    exactly on the fast ones, 50 exactly on the others. *)
Theorem slow_fast_disjoint_and_slow_wins :
  SLOW_VARIANTS ## FAST_VARIANTS ∧
  (∀ (slow fast : gset string) (v : string),
     (v ∈ slow → v ∈ fast →
      variant_order_key slow fast v = 0 ∧ variant_order_key slow fast v ≠ 100) ∧
     (v ∈ slow → variant_order_key slow fast v = 0) ∧
     (v ∉ slow → v ∈ fast → variant_order_key slow fast v = 100) ∧
     (v ∉ slow → v ∉ fast → variant_order_key slow fast v = 50)) ∧
  (∀ v : string,
     _variant_order_key v = variant_order_key SLOW_VARIANTS FAST_VARIANTS v ∧
     (_variant_order_key v = 0 ↔ v ∈ SLOW_VARIANTS) ∧
     (_variant_order_key v = 100 ↔ v ∈ FAST_VARIANTS) ∧
     (_variant_order_key v = 50 ↔ (v ∉ SLOW_VARIANTS) ∧ (v ∉ FAST_VARIANTS))).
Proof.
  split_and!; [apply SLOW_FAST_disjoint | |].
  - intros slow fast v. split_and!.
    + intros Hs _. rewrite (proj2 (variant_order_key_slow slow fast v) Hs). done.
    + apply variant_order_key_slow.
    + intros Hs Hf. by apply variant_order_key_fast.
    + intros Hs Hf. by apply variant_order_key_normal.
  - intros v. unfold _variant_order_key. split_and!; [done | | |].
    + apply variant_order_key_slow.
    + rewrite variant_order_key_fast. split; [tauto|].
      intros Hf. split; [|done]. intros Hs. by apply (SLOW_FAST_disjoint v).
    + apply variant_order_key_normal.
Qed.

Lemma slow_fast_disjoint_and_slow_wins_witness :
  variant_order_key {[ "stress"; "default" ]} {[ "default" ]} "default" = 0 ∧
  variant_order_key {[ "stress" ]} {[ "default" ]} "default" = 100 ∧
  variant_order_key {[ "stress" ]} {[ "default" ]} "jitless" = 50.
Proof.
  pose proof (proj1 (proj2 slow_fast_disjoint_and_slow_wins)) as Hkey.
  assert ("default" ∈ ({[ "stress"; "default" ]} : gset string)) as H1
    by by_evaluation.
  assert ("default" ∈ ({[ "default" ]} : gset string)) as H2 by by_evaluation.
  assert ("default" ∉ ({[ "stress" ]} : gset string)) as H3 by by_evaluation.
  assert ("jitless" ∉ ({[ "stress" ]} : gset string)) as H4 by by_evaluation.
  assert ("jitless" ∉ ({[ "default" ]} : gset string)) as H5 by by_evaluation.
  split_and!.
  - exact (proj1 (proj1 (Hkey _ _ "default") H1 H2)).
  - exact (proj1 (proj2 (proj2 (Hkey _ _ "default"))) H3 H2).
  - exact (proj2 (proj2 (proj2 (Hkey _ _ "jitless"))) H4 H5).
Defined.

(** C10. The sort neither drops, repeats nor invents a name: its output is
    a permutation of its input.  [ALL_VARIANTS] therefore holds exactly the
    keys of [ALL_VARIANT_FLAGS], and holds each once. *)
Theorem orderVariants_permutation :
  (∀ names : list string, orderVariants names ≡ₚ names) ∧
  ALL_VARIANTS ≡ₚ keys ALL_VARIANT_FLAGS ∧
  NoDup ALL_VARIANTS.
Proof.
  split_and!.
  - intros names. apply sorted_Permutation.
  - apply sorted_Permutation.
  - unfold ALL_VARIANTS. rewrite sorted_Permutation.
    apply NoDup_keys_dict_literal.
Qed.

(** ** The tables *)

Lemma subscript_jitless :
  dict_get INCOMPATIBLE_FLAGS_PER_VARIANT "jitless"
  = Some (subscript INCOMPATIBLE_FLAGS_PER_VARIANT "jitless").
Proof. reflexivity. Qed.

Lemma subscript_stress_incremental_marking :
  dict_get INCOMPATIBLE_FLAGS_PER_VARIANT "stress_incremental_marking"
  = Some (subscript INCOMPATIBLE_FLAGS_PER_VARIANT "stress_incremental_marking").
Proof. reflexivity. Qed.

(** C7. Two rule sets are built from another table's entries: the
    extra-flag set under "--stress-incremental-marking" is the per-variant
    set under "stress_incremental_marking", and the build-variable set under
    "lite_mode" is its own two patterns followed by the per-variant set
    under "jitless". *)
Theorem rule_sets_shared_by_value :
  dict_get INCOMPATIBLE_FLAGS_PER_EXTRA_FLAG "--stress-incremental-marking"
    = dict_get INCOMPATIBLE_FLAGS_PER_VARIANT "stress_incremental_marking" ∧
  dict_get INCOMPATIBLE_FLAGS_PER_VARIANT "stress_incremental_marking"
    = Some ["--no-stress-incremental-marking"] ∧
  ∃ jitless : list string,
    dict_get INCOMPATIBLE_FLAGS_PER_VARIANT "jitless" = Some jitless ∧
    dict_get INCOMPATIBLE_FLAGS_PER_BUILD_VARIABLE "lite_mode"
      = Some (["--no-lazy-feedback-allocation"; "--max-semi-space-size=*"]
              ++ jitless).
Proof.
  split_and!; [reflexivity | reflexivity |].
  eexists. split; reflexivity.
Qed.

(** C8. Every entry of [ALL_VARIANT_FLAGS] lists exactly one flag-set
    alternative.  The value type is a list of alternatives all the same: a
    table with a two-alternative entry added is a table like any other, and
    the module's own check accepts it. *)
Theorem every_variant_has_one_alternative :
  Forall (λ entry, length entry.2 = 1%nat) ALL_VARIANT_FLAGS ∧
  let table := dict_set ALL_VARIANT_FLAGS "either" [["--future"]; ["--jitless"]] in
  dict_get table "either" = Some [["--future"]; ["--jitless"]] ∧
  ∀ __debug__ : bool,
    check_variants_entries __debug__ table SLOW_VARIANTS FAST_VARIANTS = Ok tt.
Proof.
  split; [by_evaluation|]. split; [vm_compute; reflexivity|].
  intros []; vm_compute; reflexivity.
Qed.

(** ** Start-up validation *)

Lemma for_each_assert {A} (__debug__ : bool) (P : A → bool) (l : list A) :
  for_each l (λ v, py_assert __debug__ (P v)) =
  if implb __debug__ (forallb P l) then Ok tt else Raise AssertionError.
Proof.
  destruct __debug__; simpl.
  - induction l as [|x l IH]; simpl; [done|].
    destruct (P x); simpl; [apply IH | done].
  - induction l as [|x l IH]; simpl; done.
Qed.

Lemma check_variants_entries_eq (__debug__ : bool)
    (flags : list (string * list (list string))) (slow fast : gset string) :
  check_variants_entries __debug__ flags slow fast =
  if implb __debug__
       (forallb (dict_contains flags) (elements slow ++ elements fast))
  then Ok tt else Raise AssertionError.
Proof.
  unfold check_variants_entries. simpl. rewrite !for_each_assert, forallb_app.
  destruct __debug__; simpl; [|done].
  destruct (forallb _ (elements slow)); simpl; [|done].
  destruct (forallb _ (elements fast)); done.
Qed.

Lemma forallb_dict_contains
    (flags : list (string * list (list string))) (slow fast : gset string) :
  forallb (dict_contains flags) (elements slow ++ elements fast) = true ↔
  ∀ v, v ∈ slow ∪ fast → v ∈ keys flags.
Proof.
  rewrite <-Is_true_true, forallb_True, Forall_forall.
  split; intros H v Hv.
  - apply dict_contains_true, Is_true_true, H.
    rewrite elem_of_app, !elem_of_elements. by apply elem_of_union.
  - apply Is_true_true, dict_contains_true, H.
    rewrite elem_of_app, !elem_of_elements in Hv. by apply elem_of_union.
Qed.

(** The assertions pass when every classified name is a key ... *)
Lemma exec_module_Ok (__debug__ : bool)
    (flags : list (string * list (list string))) (slow fast : gset string) :
  (∀ v, v ∈ slow ∪ fast → v ∈ keys flags) →
  exec_module __debug__ flags slow fast =
  Ok (VariantsModule flags slow fast
        (sorted (variant_order_key slow fast) (keys flags))).
Proof.
  intros H%forallb_dict_contains. unfold exec_module.
  rewrite check_variants_entries_eq, H. by destruct __debug__.
Qed.

(** ... and are not run at all when [__debug__] is false. *)
Lemma exec_module_optimized
    (flags : list (string * list (list string))) (slow fast : gset string) :
  exec_module false flags slow fast =
  Ok (VariantsModule flags slow fast
        (sorted (variant_order_key slow fast) (keys flags))).
Proof. unfold exec_module. by rewrite check_variants_entries_eq. Qed.

Lemma variants_py_loads (__debug__ : bool) :
  exec_module __debug__ ALL_VARIANT_FLAGS SLOW_VARIANTS FAST_VARIANTS =
  Ok (VariantsModule ALL_VARIANT_FLAGS SLOW_VARIANTS FAST_VARIANTS ALL_VARIANTS).
Proof.
  apply exec_module_Ok. intros v Hv.
  apply dict_contains_true. revert v Hv. apply set_Forall_union.
  - unfold SLOW_VARIANTS. apply set_Forall_list_to_set.
    repeat constructor.
  - unfold FAST_VARIANTS. apply set_Forall_list_to_set.
    repeat constructor.
Qed.

(** C2 (amended). With assertions enabled ([__debug__] true, the
    interpreter's default), whenever one of the two classification sets
    holds a name that is not a key of the variant table, running the module
    stops in the assertion loop with a bare [AssertionError] (no message, so
    the name is not reported) and no module value exists for any later
    query.  With assertions disabled ([-O]) the loop checks nothing and the
    module runs to its end with the same sets. *)
Theorem missing_classified_name_raises_AssertionError
    (flags : list (string * list (list string))) (slow fast : gset string)
    (v : string) :
  v ∈ slow ∪ fast → v ∉ keys flags →
  exec_module true flags slow fast = Raise (Exn "AssertionError" []) ∧
  exec_module false flags slow fast =
    Ok (VariantsModule flags slow fast
          (sorted (variant_order_key slow fast) (keys flags))).
Proof.
  intros Hv Hk. split; [|apply exec_module_optimized].
  unfold exec_module. rewrite check_variants_entries_eq. simpl.
  destruct (forallb _ _) eqn:Hall; [|done].
  destruct Hk. by apply (proj1 (forallb_dict_contains flags slow fast) Hall).
Qed.

Lemma missing_classified_name_raises_AssertionError_witness :
  exec_module true ALL_VARIANT_FLAGS
    ({[ "nonexistent_variant" ]} ∪ SLOW_VARIANTS) FAST_VARIANTS
  = Raise (Exn "AssertionError" []).
Proof.
  refine (proj1 (missing_classified_name_raises_AssertionError
                   ALL_VARIANT_FLAGS
                   ({[ "nonexistent_variant" ]} ∪ SLOW_VARIANTS) FAST_VARIANTS
                   "nonexistent_variant" _ _)); by_evaluation.
Defined.

(** C2, as stated, fails: with "nonexistent_variant" classified slow and
    absent from the variant table, no interpreter mode raises a
    [ConfigurationError] or an exception that carries the name. *)
Lemma nonexistent_variant_no_ConfigurationError :
  ¬ ∃ (__debug__ : bool) (e : exn),
      exec_module __debug__ ALL_VARIANT_FLAGS
        ({[ "nonexistent_variant" ]} ∪ SLOW_VARIANTS) FAST_VARIANTS = Raise e
      ∧ (exc_type e = "ConfigurationError"
         ∨ "nonexistent_variant" ∈ exc_args e).
Proof.
  intros (dbg & e & He & Hclaim).
  assert (e = AssertionError) as ->.
  { destruct dbg.
    - assert (exec_module true ALL_VARIANT_FLAGS
                ({[ "nonexistent_variant" ]} ∪ SLOW_VARIANTS) FAST_VARIANTS
              = Raise AssertionError) as Hrun by (vm_compute; reflexivity).
      rewrite Hrun in He. by injection He.
    - by rewrite exec_module_optimized in He. }
  destruct Hclaim as [Hty|Harg]; [discriminate Hty|].
  by apply elem_of_nil in Harg.
Qed.

(** ** Flag matching *)

Lemma string_app_cons (a : Ascii.ascii) (s t : string) :
  String a s +:+ t = String a (s +:+ t).
Proof. reflexivity. Qed.

Lemma string_app_assoc (s t u : string) : (s +:+ t) +:+ u = s +:+ t +:+ u.
Proof.
  induction s as [|a s IH]; [done|]. by rewrite !string_app_cons, IH.
Qed.

Lemma startswith_spec (pre s : string) :
  startswith pre s = true ↔ ∃ rest, s = pre +:+ rest.
Proof.
  revert s. induction pre as [|a pre IH]; intros s.
  - split; [by exists s | done].
  - destruct s as [|b s]; simpl.
    + split; [done | by intros [rest ?]].
    + rewrite andb_true_iff, Ascii.eqb_eq, IH. split.
      * intros [-> [rest ->]]. by exists rest.
      * intros [rest Hs]. rewrite string_app_cons in Hs.
        injection Hs as -> ->. eauto.
Qed.

Lemma wildcard_base_cons (a : Ascii.ascii) (p : string) :
  wildcard_base (String a p) =
  if String.eqb (String a p) "=*" then Some "" else String a <$> wildcard_base p.
Proof. reflexivity. Qed.

(** [wildcard_base] finds the marker exactly on the patterns that end in it. *)
Lemma wildcard_base_Some (p name : string) :
  wildcard_base p = Some name ↔ p = name +:+ "=*".
Proof.
  revert name. induction p as [|a p IH]; intros name.
  - split; [done | by destruct name].
  - rewrite wildcard_base_cons.
    destruct (String.eqb_spec (String a p) "=*") as [E|NE].
    + rewrite E. split; [by intros [= <-]|].
      destruct name as [|c [|d name]]; [done | done |].
      rewrite !string_app_cons. intros [= _ _ H]. by destruct name.
    + split.
      * destruct (wildcard_base p) as [base|] eqn:Hp; [|done].
        intros [= <-]. rewrite string_app_cons. f_equal. by apply IH.
      * destruct name as [|c name]; [done|].
        rewrite string_app_cons. intros [= -> Hp].
        apply IH in Hp. by rewrite Hp.
Qed.

Lemma wildcard_base_None (p : string) :
  wildcard_base p = None ↔ ∀ name, p ≠ name +:+ "=*".
Proof.
  split.
  - intros Hp name ?%wildcard_base_Some. congruence.
  - intros Hp. destruct (wildcard_base p) as [name|] eqn:E; [|done].
    by apply wildcard_base_Some, Hp in E.
Qed.

Lemma flag_matches_bare (pattern candidate : string) :
  wildcard_base pattern = None →
  flag_matches pattern candidate = true ↔ candidate = pattern.
Proof.
  intros Hp. unfold flag_matches. rewrite Hp, String.eqb_eq. split; congruence.
Qed.

Lemma flag_matches_wildcard (name candidate : string) :
  flag_matches (name +:+ "=*") candidate = true ↔
  (∃ value, candidate = name +:+ "=" +:+ value) ∨ candidate = name.
Proof.
  unfold flag_matches.
  rewrite (proj2 (wildcard_base_Some _ name) eq_refl).
  rewrite orb_true_iff, startswith_spec, String.eqb_eq.
  by setoid_rewrite string_app_assoc.
Qed.

(** ** The query *)

Lemma bind_all_nil {A B} (f : A → list B) (l : list A) :
  (∀ x, x ∈ l → f x = []) → l ≫= f = [].
Proof.
  intros Hf. induction l as [|x l IH]; [done|].
  rewrite bind_cons, Hf, IH; [done | | left].
  intros y Hy. apply Hf. by right.
Qed.

Lemma rule_set_None (table : list (string * list string)) (k : string) :
  dict_get table k = None → rule_set table k = [].
Proof. unfold rule_set. by intros ->. Qed.





Section query_facts.
Context (R : CompatibilityResolver).
Implicit Types (variantName : string) (buildVariables : gset string)
  (extraFlags : list string) (x c : option nat * string).

Lemma elem_of_activatedBy (e p : string) :
  p ∈ activatedBy R e ↔
  ∃ key patterns,
    (key, patterns) ∈ rulesPerExtraFlag R
    ∧ flag_matches key e = true ∧ p ∈ patterns.
Proof.
  unfold activatedBy. rewrite list_elem_of_bind. split.
  - intros ([key pats] & Hp & [Hm Hin]%list_elem_of_filter).
    by exists key, pats.
  - intros (key & pats & Hin & Hm & Hp). exists (key, pats).
    split; [done|]. by apply list_elem_of_filter.
Qed.

Lemma elem_of_collectExclusions x variantName buildVariables extraFlags :
  x ∈ collectExclusions R variantName buildVariables extraFlags ↔
  (x.1 = None ∧
   (x.2 ∈ rule_set (rulesPerVariant R) variantName
    ∨ ∃ b, b ∈ buildVariables ∧ x.2 ∈ rule_set (rulesPerBuildVariable R) b))
  ∨ (∃ i e, x.1 = Some i ∧ extraFlags !! i = Some e ∧ x.2 ∈ activatedBy R e).
Proof.
  unfold collectExclusions. destruct x as [o p]. simpl.
  rewrite !elem_of_app, !list_elem_of_fmap, list_elem_of_join. split.
  - intros [(y & [= -> ->] & Hy) | [(y & [= -> ->] & Hy) | (l & Hx & Hl)]].
    + left. split; [done|]. by left.
    + apply list_elem_of_bind in Hy as (b & Hy & Hb%elem_of_elements).
      left. split; [done|]. right. by exists b.
    + apply elem_of_lookup_imap in Hl as (i & e & -> & He).
      apply list_elem_of_fmap in Hx as (q & [= -> ->] & Hq).
      right. by exists i, e.
  - intros [[-> [Hp | (b & Hb & Hp)]] | (i & e & -> & He & Hp)].
    + left. by exists p.
    + right. left. exists p. split; [done|].
      apply list_elem_of_bind. exists b. by rewrite elem_of_elements.
    + right. right. exists (pair (Some i) <$> activatedBy R e). split.
      * apply list_elem_of_fmap. by exists p.
      * apply elem_of_lookup_imap. by exists i, e.
Qed.



Lemma excludes_true x c :
  excludes x c = true ↔
  (x.1 = None ∨ x.1 ≠ c.1) ∧ flag_matches x.2 c.2 = true.
Proof. unfold excludes. by rewrite andb_true_iff, bool_decide_eq_true. Qed.

Lemma isCompatible_false variantName buildVariables extraFlags :
  isCompatible R variantName buildVariables extraFlags = false ↔
  ∃ exclusion candidate,
    exclusion ∈ collectExclusions R variantName buildVariables extraFlags
    ∧ candidate ∈ candidateFlags R variantName extraFlags
    ∧ (exclusion.1 = None ∨ exclusion.1 ≠ candidate.1)
    ∧ flag_matches exclusion.2 candidate.2 = true.
Proof.
  unfold isCompatible. rewrite negb_false_iff, existsb_exists. split.
  - intros (c & Hc & (x & Hx & [Hside Hm]%excludes_true)%existsb_exists).
    exists x, c. by rewrite <-!list_elem_of_In in *.
  - intros (x & c & Hx & Hc & Hside & Hm). exists c.
    rewrite existsb_exists, <-list_elem_of_In. split; [done|].
    exists x. rewrite <-list_elem_of_In, excludes_true. done.
Qed.

End query_facts.

(** C5. Matching inside [isCompatible]: a pattern without the wildcard
    marker matches a candidate only if the two strings are equal, and a
    pattern [name=*] matches the candidates [name=value] for every value,
    and the bare candidate [name].  The query reports incompatible exactly
    when some collected pattern matches some candidate flag other than the
    extra flag that brought the pattern in. *)
Theorem flag_matching_semantics :
  (∀ pattern candidate : string,
     wildcard_base pattern = None →
     flag_matches pattern candidate = true ↔ candidate = pattern) ∧
  (∀ name candidate : string,
     flag_matches (name +:+ "=*") candidate = true ↔
     (∃ value, candidate = name +:+ "=" +:+ value) ∨ candidate = name) ∧
  (∀ (R : CompatibilityResolver) (variantName : string)
     (buildVariables : gset string) (extraFlags : list string),
     isCompatible R variantName buildVariables extraFlags = false ↔
     ∃ exclusion candidate,
       exclusion ∈ collectExclusions R variantName buildVariables extraFlags
       ∧ candidate ∈ candidateFlags R variantName extraFlags
       ∧ (exclusion.1 = None ∨ exclusion.1 ≠ candidate.1)
       ∧ flag_matches exclusion.2 candidate.2 = true).
Proof.
  split_and!.
  - apply flag_matches_bare.
  - apply flag_matches_wildcard.
  - apply isCompatible_false.
Qed.

Lemma flag_matching_semantics_witness :
  wildcard_base "--cache=none" = None ∧
  (flag_matches "--cache=none" "--cache=code" = true ↔
   "--cache=code" = "--cache=none").
Proof.
  split; [reflexivity|].
  apply (proj1 flag_matching_semantics "--cache=none" "--cache=code").
  reflexivity.
Defined.

(** C6. When no rule's source key is active (the variant name keys no
    per-variant rule, no active build variable keys a build-variable rule,
    and no supplied extra flag is matched by a source key of the extra-flag
    table), [isCompatible] reports compatible, whatever the flags are. *)
Theorem no_active_rule_is_compatible
    (R : CompatibilityResolver) (variantName : string)
    (buildVariables : gset string) (extraFlags : list string) :
  dict_get (rulesPerVariant R) variantName = None →
  (∀ b, b ∈ buildVariables → dict_get (rulesPerBuildVariable R) b = None) →
  (∀ e key, e ∈ extraFlags → key ∈ keys (rulesPerExtraFlag R) →
            flag_matches key e = false) →
  isCompatible R variantName buildVariables extraFlags = true.
Proof.
  intros Hv Hb He. apply not_false_iff_true.
  intros (x & c & Hx & _)%isCompatible_false.
  apply elem_of_collectExclusions
    in Hx as [[_ [Hx | (b & Hin & Hx)]] | (i & e & _ & Hi & Hx)].
  - rewrite (rule_set_None _ _ Hv) in Hx. by apply elem_of_nil in Hx.
  - rewrite (rule_set_None _ _ (Hb b Hin)) in Hx. by apply elem_of_nil in Hx.
  - apply elem_of_activatedBy in Hx as (key & pats & Hrule & Hm & _).
    rewrite (He e key) in Hm; [done | by eapply list_elem_of_lookup_2 |].
    apply list_elem_of_fmap. by exists (key, pats).
Qed.

Lemma no_active_rule_is_compatible_witness :
  isCompatible variants_py "default" {[ "asan" ]}
    ["--opt"; "--no-opt"; "--max-semi-space-size=1"] = true.
Proof.
  apply no_active_rule_is_compatible.
  - reflexivity.
  - intros b ->%elem_of_singleton. reflexivity.
  - intros e key He Hkey.
    assert (Forall (λ e, Forall (λ key, flag_matches key e = false)
                           (keys INCOMPATIBLE_FLAGS_PER_EXTRA_FLAG))
              ["--opt"; "--no-opt"; "--max-semi-space-size=1"]) as Hall
      by by_evaluation.
    rewrite Forall_forall in Hall. specialize (Hall e He).
    rewrite Forall_forall in Hall. exact (Hall key Hkey).
Defined.

(** C4. "jitless" has the base flags ["--jitless"]; every pattern
    excluded for variant "jitless" is also excluded for build variable
    "lite_mode"; "--opt" is in both rule sets; and the query for variant
    "jitless", build variable "lite_mode" and extra flag "--opt" reports
    incompatible. *)
Theorem jitless_lite_mode_opt_incompatible :
  dict_get ALL_VARIANT_FLAGS "jitless" = Some [["--jitless"]] ∧
  (∃ jitless lite_mode : list string,
     dict_get INCOMPATIBLE_FLAGS_PER_VARIANT "jitless" = Some jitless ∧
     dict_get INCOMPATIBLE_FLAGS_PER_BUILD_VARIABLE "lite_mode" = Some lite_mode ∧
     Forall (λ pattern, pattern ∈ lite_mode) jitless ∧
     "--opt" ∈ jitless ∧ "--opt" ∈ lite_mode) ∧
  isCompatible variants_py "jitless" {[ "lite_mode" ]} ["--opt"] = false.
Proof.
  split_and!; [reflexivity | | vm_compute; reflexivity].
  do 2 eexists. split_and!; [reflexivity | reflexivity | | |]; by_evaluation.
Qed.

(** ** A rule that excludes its own key *)

(** The module's own self-excluding rule: two values of "--gc-interval"
    are a conflict, one value is none. *)
Example gc_interval_at_most_once :
  isCompatible variants_py "default" ∅ ["--gc-interval=1"; "--gc-interval=2"]
    = false ∧
  isCompatible variants_py "default" ∅ ["--gc-interval=1"] = true.
Proof. split; vm_compute; reflexivity. Qed.



(** * Further properties of the module *)

(** ** The assertion loop *)

Lemma forallb_same_elements {A} (P : A → bool) (l l' : list A) :
  (∀ x, x ∈ l ↔ x ∈ l') → forallb P l = forallb P l'.
Proof.
  intros Hll. apply eq_true_iff_eq.
  rewrite <-!Is_true_true, !forallb_True, !Forall_forall.
  split; intros H x Hx; apply H, Hll, Hx.
Qed.

Lemma check_entries_in_order_two (__debug__ : bool)
    (flags : list (string * list (list string))) (l1 l2 : list string) :
  check_entries_in_order __debug__ flags [l1; l2] =
  if implb __debug__ (forallb (dict_contains flags) (l1 ++ l2))
  then Ok tt else Raise AssertionError.
Proof.
  unfold check_entries_in_order. simpl. rewrite !for_each_assert, forallb_app.
  destruct __debug__; simpl; [|done].
  destruct (forallb _ l1); simpl; [|done]. by destruct (forallb _ l2).
Qed.

(** X1. With assertions enabled ([__debug__] true) the assertion loop
    passes exactly when every name of the two sets is a key of the variant
    table.  With assertions disabled it always passes.  In either mode, when
    it does not pass it raises the bare [AssertionError] and nothing else. *)
Theorem check_variants_entries_passes_iff
    (flags : list (string * list (list string))) (slow fast : gset string) :
  (check_variants_entries true flags slow fast = Ok tt ↔
   ∀ v, v ∈ slow ∪ fast → v ∈ keys flags) ∧
  check_variants_entries false flags slow fast = Ok tt ∧
  ∀ __debug__ : bool,
    check_variants_entries __debug__ flags slow fast = Ok tt ∨
    check_variants_entries __debug__ flags slow fast = Raise AssertionError.
Proof.
  split_and!.
  - rewrite check_variants_entries_eq, <-forallb_dict_contains. simpl.
    destruct (forallb _ _); split; done.
  - by rewrite check_variants_entries_eq.
  - intros dbg. rewrite check_variants_entries_eq.
    destruct (implb _ _); auto.
Qed.

(** X2. The outcome of the assertion loop does not depend on the order in
    which the two sets are iterated, nor on a name being visited twice:
    any two sequences that enumerate the sets give the result of the loop. *)
Theorem check_entries_order_irrelevant (__debug__ : bool)
    (flags : list (string * list (list string))) (slow fast : gset string)
    (l1 l2 : list string) :
  (∀ v, v ∈ l1 ↔ v ∈ slow) → (∀ v, v ∈ l2 ↔ v ∈ fast) →
  check_entries_in_order __debug__ flags [l1; l2]
  = check_variants_entries __debug__ flags slow fast.
Proof.
  intros H1 H2.
  rewrite check_entries_in_order_two, check_variants_entries_eq.
  rewrite (forallb_same_elements _ (l1 ++ l2) (elements slow ++ elements fast));
    [done|].
  intros v. rewrite !elem_of_app, !elem_of_elements, H1, H2. done.
Qed.

Lemma check_entries_order_irrelevant_witness :
  check_entries_in_order true ALL_VARIANT_FLAGS
    [["stress"; "stress_snapshot"; "nooptimization"]; ["default"]]
  = check_variants_entries true ALL_VARIANT_FLAGS SLOW_VARIANTS FAST_VARIANTS.
Proof.
  apply check_entries_order_irrelevant.
  - intros v. unfold SLOW_VARIANTS. by rewrite elem_of_list_to_set.
  - intros v. unfold FAST_VARIANTS. by rewrite elem_of_list_to_set.
Defined.

(** X3. Once the module has run to its end with assertions enabled
    ([__debug__] true), every name that is not a key of the variant table
    gets the middle key 50: it is in neither set, and the key function raises
    nothing for it. *)
Theorem unknown_name_gets_middle_key
    (flags : list (string * list (list string))) (slow fast : gset string)
    (m : variants_module) (v : string) :
  exec_module true flags slow fast = Ok m →
  v ∉ keys flags →
  variant_order_key slow fast v = 50.
Proof.
  unfold exec_module. rewrite check_variants_entries_eq. simpl.
  destruct (forallb _ _) eqn:Hall; [|done]. intros _ Hv.
  pose proof (proj1 (forallb_dict_contains flags slow fast) Hall) as Hkeys.
  apply variant_order_key_normal. split; intros Hin; apply Hv, Hkeys.
  - apply elem_of_union. by left.
  - apply elem_of_union. by right.
Qed.

Lemma unknown_name_gets_middle_key_witness :
  variant_order_key SLOW_VARIANTS FAST_VARIANTS "nonexistent_variant" = 50.
Proof.
  apply (unknown_name_gets_middle_key ALL_VARIANT_FLAGS SLOW_VARIANTS
           FAST_VARIANTS
           (VariantsModule ALL_VARIANT_FLAGS SLOW_VARIANTS FAST_VARIANTS
              ALL_VARIANTS)).
  - vm_compute. reflexivity.
  - by_evaluation.
Defined.

(** ** The sort that builds [ALL_VARIANTS] *)

Section stable_sort.
Context {A : Type} (key : A → Z).
Implicit Types (x : A) (l : list A).

(** A list that ascends in the key is fixed by the subsequences it has for
    the single keys. *)
Lemma ascending_determined_by_classes l1 l2 :
  StronglySorted (λ y z, key y ≤ key z) l1 →
  StronglySorted (λ y z, key y ≤ key z) l2 →
  (∀ k, filter (λ y, key y = k) l1 = filter (λ y, key y = k) l2) →
  l1 = l2.
Proof.
  revert l2. induction l1 as [|x l1 IH]; intros [|y l2] S1 S2 H; [done| | |].
  - specialize (H (key y)). by rewrite filter_cons_True in H.
  - specialize (H (key x)). by rewrite filter_cons_True in H.
  - apply StronglySorted_inv in S1 as [S1 F1].
    apply StronglySorted_inv in S2 as [S2 F2].
    rewrite Forall_forall in F1, F2.
    assert (key x = key y) as Hk.
    { destruct (Z.lt_trichotomy (key x) (key y)) as [Hlt|[?|Hgt]]; [|done|].
      - pose proof (H (key x)) as Hx.
        rewrite filter_cons_True, (filter_cons_False _ y) in Hx by (done || lia).
        assert (x ∈ filter (λ z, key z = key x) l2) as Hin
          by (rewrite <-Hx; apply list_elem_of_here).
        apply list_elem_of_filter in Hin as [_ Hin]. specialize (F2 x Hin). lia.
      - pose proof (H (key y)) as Hy.
        rewrite (filter_cons_True _ y), filter_cons_False in Hy by (done || lia).
        assert (y ∈ filter (λ z, key z = key y) l1) as Hin
          by (rewrite Hy; apply list_elem_of_here).
        apply list_elem_of_filter in Hin as [_ Hin]. specialize (F1 y Hin). lia. }
    pose proof (H (key x)) as Hx.
    rewrite filter_cons_True, (filter_cons_True _ y) in Hx by done.
    injection Hx as -> Hx. f_equal. apply IH; [done..|].
    intros k. destruct (decide (key y = k)) as [<-|Hne]; [done|].
    specialize (H k). by rewrite !filter_cons_False in H.
Qed.

Lemma sorted_of_ascending l :
  StronglySorted (λ y z, key y ≤ key z) l → sorted key l = l.
Proof.
  induction 1 as [|x l _ IH Hx]; simpl; [done|].
  rewrite IH. by apply insert_by_key_stop.
Qed.

Lemma filter_ascending (P : A → Prop) `{!∀ x, Decision (P x)} l :
  StronglySorted (λ y z, key y ≤ key z) l →
  StronglySorted (λ y z, key y ≤ key z) (filter P l).
Proof.
  induction 1 as [|x l _ IH Hx]; [constructor|].
  rewrite filter_cons. case_decide; [|done].
  constructor; [done|]. rewrite Forall_forall in *.
  intros y [_ Hy]%list_elem_of_filter. by apply Hx.
Qed.

Lemma filter_swap (P Q : A → Prop)
    `{!∀ x, Decision (P x), !∀ x, Decision (Q x)} l :
  filter P (filter Q l) = filter Q (filter P l).
Proof. rewrite !list_filter_filter. apply list_filter_iff. tauto. Qed.

Lemma sorted_filter (P : A → Prop) `{!∀ x, Decision (P x)} l :
  sorted key (filter P l) = filter P (sorted key l).
Proof.
  apply ascending_determined_by_classes.
  - apply sorted_ascending.
  - apply filter_ascending, sorted_ascending.
  - intros k. rewrite sorted_stable.
    rewrite (filter_swap _ P (sorted key l)), sorted_stable.
    apply filter_swap.
Qed.

Lemma ascending_lookup_lt l (i j : nat) x y :
  StronglySorted (λ y z, key y ≤ key z) l →
  l !! i = Some x → l !! j = Some y → key x < key y → (i < j)%nat.
Proof.
  intros Hl. revert i j. induction Hl as [|z l _ IH Hz]; intros i j Hi Hj Hlt.
  { by rewrite lookup_nil in Hi. }
  rewrite Forall_forall in Hz.
  destruct i as [|i], j as [|j]; simpl in *.
  - simplify_eq. lia.
  - lia.
  - simplify_eq. apply list_elem_of_lookup_2 in Hi. specialize (Hz _ Hi). lia.
  - apply ->Nat.succ_lt_mono. by apply IH.
Qed.
End stable_sort.

(** X4. The sort is the only stable sort: a list that ascends in the key
    and keeps, for every key, the input's elements of that key in input
    order is the list [sorted] returns.  Whatever stable algorithm the
    builtin runs, its result is this one. *)
Theorem stable_sort_unique {A} (key : A → Z) (l l' : list A) :
  StronglySorted (λ y z, key y ≤ key z) l' →
  (∀ k, filter (λ y, key y = k) l' = filter (λ y, key y = k) l) →
  l' = sorted key l.
Proof.
  intros Hl' Hk. apply (ascending_determined_by_classes key); [done | |].
  - apply sorted_ascending.
  - intros k. by rewrite sorted_stable.
Qed.

Lemma stable_sort_unique_witness :
  ["stress"; "default"] = sorted _variant_order_key ["default"; "stress"].
Proof.
  apply stable_sort_unique.
  - by_evaluation.
  - intros k. rewrite !filter_cons, !filter_nil.
    change (_variant_order_key "stress") with 0.
    change (_variant_order_key "default") with 100.
    repeat case_decide; (done || lia).
Defined.

(** X5. A sequence of names that already ascends in the key (slow names
    first, fast names last) is returned as it is. *)
Theorem orderVariants_of_ordered (names : list string) :
  StronglySorted (λ v w, _variant_order_key v ≤ _variant_order_key w) names →
  orderVariants names = names.
Proof. apply sorted_of_ascending. Qed.

Lemma orderVariants_of_ordered_witness :
  orderVariants ["stress"; "jitless"; "future"; "default"]
  = ["stress"; "jitless"; "future"; "default"].
Proof. apply orderVariants_of_ordered. by_evaluation. Defined.

(** X6. Ordering is idempotent: ordering an ordered sequence changes
    nothing; so [ALL_VARIANTS] is its own ordering. *)
Theorem orderVariants_idempotent :
  (∀ names, orderVariants (orderVariants names) = orderVariants names) ∧
  orderVariants ALL_VARIANTS = ALL_VARIANTS.
Proof.
  split; [intros names|]; apply sorted_of_ascending, sorted_ascending.
Qed.

(** X7. Selecting names and ordering commute: ordering the names that
    satisfy a condition gives the ordered sequence restricted to them. *)
Theorem orderVariants_filter
    (P : string → Prop) `{!∀ v, Decision (P v)} (names : list string) :
  orderVariants (filter P names) = filter P (orderVariants names).
Proof. apply sorted_filter. Qed.

(** X8. In the ordered sequence a name with a smaller key stands at a
    smaller index than a name with a larger key. *)
Theorem orderVariants_smaller_key_first
    (names : list string) (i j : nat) (v w : string) :
  orderVariants names !! i = Some v →
  orderVariants names !! j = Some w →
  _variant_order_key v < _variant_order_key w →
  (i < j)%nat.
Proof. apply ascending_lookup_lt, sorted_ascending. Qed.

Lemma orderVariants_smaller_key_first_witness : (0 < 2)%nat.
Proof.
  apply (orderVariants_smaller_key_first
           ["default"; "jitless"; "stress"] 0 2 "stress" "default");
    reflexivity.
Defined.

(** ** The tables *)

(** X9. Every variant that has an entry in
    [INCOMPATIBLE_FLAGS_PER_VARIANT] is a variant of [ALL_VARIANT_FLAGS]:
    no rule is keyed by a name without base flags. *)
Theorem incompatible_flags_keys_are_variants :
  Forall (λ name, name ∈ keys ALL_VARIANT_FLAGS)
    (keys INCOMPATIBLE_FLAGS_PER_VARIANT).
Proof. by_evaluation. Qed.

(** ** What a finished import provides *)

Lemma exec_module_all_variants_eq (__debug__ : bool)
    (flags : list (string * list (list string))) (slow fast : gset string)
    (m : variants_module) :
  exec_module __debug__ flags slow fast = Ok m →
  mod_ALL_VARIANTS m = sorted (variant_order_key slow fast) (keys flags).
Proof.
  unfold exec_module. destruct (check_variants_entries _ _ _ _); [|done].
  simpl. by intros [= <-].
Qed.

Lemma exec_module_checked
    (flags : list (string * list (list string))) (slow fast : gset string)
    (m : variants_module) :
  exec_module true flags slow fast = Ok m →
  ∀ v, v ∈ slow ∪ fast → v ∈ keys flags.
Proof.
  unfold exec_module. rewrite check_variants_entries_eq. simpl.
  destruct (forallb _ _) eqn:Hall; [|done]. intros _.
  by apply forallb_dict_contains.
Qed.

(** X10. For any variant table and classification sets with which the
    module runs to its end, the list it binds to [ALL_VARIANTS] is a
    rearrangement of the table's keys: the slow ones, then those in neither
    set, then the fast ones that are not slow, each group in table order. *)
Theorem exec_module_all_variants (__debug__ : bool)
    (flags : list (string * list (list string))) (slow fast : gset string)
    (m : variants_module) :
  exec_module __debug__ flags slow fast = Ok m →
  mod_ALL_VARIANTS m =
    filter (λ v, v ∈ slow) (keys flags)
    ++ filter (λ v, (v ∉ slow) ∧ (v ∉ fast)) (keys flags)
    ++ filter (λ v, (v ∉ slow) ∧ v ∈ fast) (keys flags)
  ∧ mod_ALL_VARIANTS m ≡ₚ keys flags.
Proof.
  intros ->%exec_module_all_variants_eq. split.
  - apply sorted_variant_order_key.
  - apply sorted_Permutation.
Qed.

Lemma exec_module_all_variants_witness :
  ALL_VARIANTS ≡ₚ keys ALL_VARIANT_FLAGS.
Proof.
  refine (proj2 (exec_module_all_variants true ALL_VARIANT_FLAGS SLOW_VARIANTS
                   FAST_VARIANTS
                   (VariantsModule ALL_VARIANT_FLAGS SLOW_VARIANTS
                      FAST_VARIANTS ALL_VARIANTS) _)).
  vm_compute. reflexivity.
Defined.

(** X11. After a finished import with assertions enabled ([__debug__]
    true) every name of the two classification sets occurs in the list bound
    to [ALL_VARIANTS]: the assertions rule out a classified name that no run
    would ever reach. *)
Theorem classified_names_are_listed
    (flags : list (string * list (list string))) (slow fast : gset string)
    (m : variants_module) (v : string) :
  exec_module true flags slow fast = Ok m →
  v ∈ slow ∪ fast →
  v ∈ mod_ALL_VARIANTS m.
Proof.
  intros Hm Hv. rewrite (exec_module_all_variants_eq _ _ _ _ _ Hm).
  rewrite sorted_Permutation. by apply (exec_module_checked _ _ _ _ Hm).
Qed.

Lemma classified_names_are_listed_witness : "stress_snapshot" ∈ ALL_VARIANTS.
Proof.
  apply (classified_names_are_listed ALL_VARIANT_FLAGS SLOW_VARIANTS
           FAST_VARIANTS
           (VariantsModule ALL_VARIANT_FLAGS SLOW_VARIANTS FAST_VARIANTS
              ALL_VARIANTS) "stress_snapshot").
  - vm_compute. reflexivity.
  - by_evaluation.
Defined.
